(** * videos/child-imagination.py: submit, poll, download

    A shallow embedding of the script [src/videos/child-imagination.py].
    The script talks to a remote video-generation service through an SDK
    client: it submits a job, polls the returned operation handle every ten
    seconds until the handle reports completion, then downloads the first
    generated video and saves it under a fixed file name.

    The SDK is not part of the repository.  Its calls are modelled as
    requests to a scripted [Service]: every reply is either a value or an
    exception, and the run of the script records each call together with the
    reply it received. *)

From Stdlib Require Import List String ZArith Lia Bool Arith.
Import ListNotations.
Open Scope string_scope.
Open Scope list_scope.

(** ** Data owned by the SDK, as far as the script looks into it *)

(** [generated_video.video]: an opaque file reference which the script only
    hands back to the SDK. *)
Record Video := mkVideo { uri : string }.

(** An element of [response.generated_videos]. *)
Record GeneratedVideo := mkGeneratedVideo { video : Video }.

(** [operation.response]. *)
Record GenerateVideosResponse := mkResponse
  { generated_videos : list GeneratedVideo }.

(** The operation handle.  Each value is a snapshot: the script replaces
    its local copy by the one returned by [client.operations.get].  The
    script looks at [done] through its truth value only ([not
    operation.done]).  The response is absent ([None]) as long as the
    service has not attached it. *)
Record Operation := mkOperation
  { name : string;
    done : bool;
    response : option GenerateVideosResponse }.

(** ** Exceptions, replies and the scripted service *)

Inductive Exn :=
| RemoteError (msg : string)   (* raised inside an SDK call *)
| AttributeError               (* attribute of [None] *)
| IndexError.                  (* list index out of range *)

Inductive Reply (A : Type) :=
| Ok (a : A)
| Raise (e : Exn).
Arguments Ok {A} a.
Arguments Raise {A} e.

(** What the service answers to each call the script can make.
    [get_reply k] answers the [k]-th call of [client.operations.get],
    counted from zero. *)
Record Service := mkService
  { client_reply : Reply unit;
    generate_reply : Reply Operation;
    get_reply : nat -> Reply Operation;
    download_reply : Reply unit;
    save_reply : Reply unit }.

(** ** Observable events *)

Inductive Event :=
| EClient (r : Reply unit)
| EGenerateVideos (model prompt : string) (r : Reply Operation)
| EPrint (msg : string)
| ESleep (secs : Z)
| EOperationsGet (operation : Operation) (r : Reply Operation)
| EResponse (operation : Operation)
| EFilesDownload (file : Video) (r : Reply unit)
| ESave (v : Video) (path : string) (r : Reply unit).

(** ** The monad of runs

    A computation starts with the number of [operations.get] calls made so
    far and produces an outcome, the updated count and the events it
    emitted, oldest first.  [Diverged] marks a loop that was cut off by its
    iteration budget; it is not an outcome of the script itself. *)

Inductive Outcome (A : Type) :=
| Returned (a : A)
| Raised (e : Exn)
| Diverged.
Arguments Returned {A} a.
Arguments Raised {A} e.
Arguments Diverged {A}.

Record Run (A : Type) := mkRun
  { outcome : Outcome A;
    polled : nat;
    trace : list Event }.
Arguments mkRun {A} _ _ _.
Arguments outcome {A} _.
Arguments polled {A} _.
Arguments trace {A} _.

Definition M (A : Type) := nat -> Run A.

Definition ret {A} (a : A) : M A := fun p => mkRun (Returned a) p [].

Definition raise {A} (e : Exn) : M A := fun p => mkRun (Raised e) p [].

Definition diverge {A} : M A := fun p => mkRun Diverged p [].

Definition bind {A B} (m : M A) (f : A -> M B) : M B :=
  fun p =>
    let r := m p in
    match outcome r with
    | Returned a =>
        let r' := f a (polled r) in
        mkRun (outcome r') (polled r') (trace r ++ trace r')
    | Raised e => mkRun (Raised e) (polled r) (trace r)
    | Diverged => mkRun Diverged (polled r) (trace r)
    end.

Declare Scope run_scope.
Delimit Scope run_scope with run.
Notation "x <- m ;; k" := (bind m (fun x => k))
  (at level 100, m at next level, right associativity) : run_scope.
Notation "m ;; k" := (bind m (fun _ => k))
  (at level 100, right associativity) : run_scope.
Open Scope run_scope.

(** An SDK call: emit the event carrying the reply, then return the value
    or raise the exception of the reply. *)
Definition call {A} (ev : Reply A -> Event) (r : Reply A) : M A :=
  fun p =>
    mkRun (match r with Ok a => Returned a | Raise e => Raised e end)
          p [ev r].

(** An event which cannot fail. *)
Definition emit (ev : Event) : M unit := fun p => mkRun (Returned tt) p [ev].

(** ** The script *)

Definition prompt : string :=
  "A whimsical stop-motion animation of a tiny robot tending to a garden of glowing mushrooms on a miniature planet.".

Definition model : string := "veo-3.0-generate-preview".

Definition waiting_message : string :=
  "Waiting for video generation to complete...".

Definition saved_message : string :=
  "Generated video saved to style_example.mp4".

Definition output_path : string := "style_example.mp4".

Definition poll_interval : Z := 10.

Section Script.

Variable svc : Service.

(** Line 4: [genai.Client()]. *)
Definition Client : M unit := call EClient (client_reply svc).

(** Lines 7-10: [client.models.generate_videos(model=..., prompt=...)]. *)
Definition generate_videos (model prompt : string) : M Operation :=
  call (EGenerateVideos model prompt) (generate_reply svc).

Definition print (msg : string) : M unit := emit (EPrint msg).

Definition sleep (secs : Z) : M unit := emit (ESleep secs).

(** Line 16: [client.operations.get(operation)]; the call consumes the
    next scripted reply. *)
Definition operations_get (operation : Operation) : M Operation :=
  fun p =>
    let r := get_reply svc p in
    mkRun (match r with Ok a => Returned a | Raise e => Raised e end)
          (S p) [EOperationsGet operation r].

(** Line 19, [operation.response.generated_videos]: reading
    [generated_videos] from an absent response is an attribute error. *)
Definition response_generated_videos (operation : Operation)
  : M (list GeneratedVideo) :=
  emit (EResponse operation) ;;
  match response operation with
  | Some r => ret (generated_videos r)
  | None => raise AttributeError
  end.

(** Line 19, [...[0]]. *)
Definition index0 {A} (l : list A) : M A :=
  match nth_error l 0 with
  | Some a => ret a
  | None => raise IndexError
  end.

Definition files_download (file : Video) : M unit :=
  call (EFilesDownload file) (download_reply svc).

Definition save (v : Video) (path : string) : M unit :=
  call (ESave v path) (save_reply svc).

(** Lines 13-16.  [fuel] bounds the number of times the body runs. *)
Fixpoint poll_loop (fuel : nat) (operation : Operation) : M Operation :=
  if done operation then ret operation
  else
    match fuel with
    | O => diverge
    | S fuel' =>
        print waiting_message ;;
        sleep poll_interval ;;
        operation' <- operations_get operation ;;
        poll_loop fuel' operation'
    end.

(** Lines 19-21. *)
Definition download_generated_video (operation : Operation) : M unit :=
  videos <- response_generated_videos operation ;;
  generated_video <- index0 videos ;;
  files_download (video generated_video) ;;
  save (video generated_video) output_path.

(** The whole module, lines 4-22. *)
Definition main (fuel : nat) : M unit :=
  Client ;;
  operation <- generate_videos model prompt ;;
  operation <- poll_loop fuel operation ;;
  download_generated_video operation ;;
  print saved_message.

Definition run (fuel : nat) : Run unit := main fuel 0.

(** Lines 19-22, what [main] does with the handle the loop returns. *)
Definition after_loop (operation : Operation) : M unit :=
  download_generated_video operation ;;
  print saved_message.

End Script.

(** ** Reading traces *)

(** The exception an event carries, if its call failed. *)
Definition raised (ev : Event) : option Exn :=
  match ev with
  | EClient (Raise e)
  | EGenerateVideos _ _ (Raise e)
  | EOperationsGet _ (Raise e)
  | EFilesDownload _ (Raise e)
  | ESave _ _ (Raise e) => Some e
  | _ => None
  end.

(** The handle the script holds after an event, given the one before:
    [generate_videos] and [operations.get] replace it on success. *)
Definition observe (cur : option Operation) (ev : Event) : option Operation :=
  match ev with
  | EGenerateVideos _ _ (Ok op) => Some op
  | EOperationsGet _ (Ok op) => Some op
  | _ => cur
  end.

(** The handle held after a whole trace. *)
Definition handle_after (tr : list Event) : option Operation :=
  fold_left observe tr None.

Definition is_save (ev : Event) : bool :=
  match ev with ESave _ _ _ => true | _ => false end.

Definition is_download (ev : Event) : bool :=
  match ev with EFilesDownload _ _ => true | _ => false end.

Definition is_sleep (ev : Event) : bool :=
  match ev with ESleep _ => true | _ => false end.

Definition is_get (ev : Event) : bool :=
  match ev with EOperationsGet _ _ => true | _ => false end.

Definition is_generate (ev : Event) : bool :=
  match ev with EGenerateVideos _ _ _ => true | _ => false end.

Definition is_print (msg : string) (ev : Event) : bool :=
  match ev with EPrint m => String.eqb m msg | _ => false end.

(** The events the loop body emits. *)
Definition is_loop_event (ev : Event) : bool :=
  match ev with
  | EPrint m => String.eqb m waiting_message
  | ESleep secs => Z.eqb secs poll_interval
  | EOperationsGet _ _ => true
  | _ => false
  end.

(** The events of lines 19-22. *)
Definition is_tail_event (ev : Event) : bool :=
  match ev with
  | EResponse _ | EFilesDownload _ _ | ESave _ _ _ => true
  | EPrint m => String.eqb m saved_message
  | _ => false
  end.

(** Seconds slept in a trace. *)
Definition slept (tr : list Event) : Z :=
  fold_right (fun ev acc => match ev with
                            | ESleep secs => (secs + acc)%Z
                            | _ => acc
                            end) 0%Z tr.

(** A run in which a failed call is the last event and its exception the
    outcome. *)
Definition faithful {A} (r : Run A) : Prop :=
  forall pre ev post e,
    trace r = pre ++ ev :: post -> raised ev = Some e ->
    post = [] /\ outcome r = Raised e.

Definition count (f : Event -> bool) (tr : list Event) : nat :=
  List.length (filter f tr).

(** One turn of the loop body on [operation], whose poll was answered [r]. *)
Definition iteration (operation : Operation) (r : Reply Operation)
  : list Event :=
  [EPrint waiting_message; ESleep poll_interval; EOperationsGet operation r].

(** [n] successful turns along a sequence of snapshots [s], starting at
    snapshot [i]: turn [k] polls with [s k] and receives [s (S k)]. *)
Definition turns (s : nat -> Operation) (i n : nat) : list Event :=
  flat_map (fun k => iteration (s k) (Ok (s (S k)))) (seq i n).

Definition iterations (s : nat -> Operation) (n : nat) : list Event :=
  turns s 0 n.

(** ** Runs, relationally

    The runs the loop can make from a handle, whatever the budget, the runs
    of the lines after the loop, and the runs of the whole script. *)

Inductive loop_run (svc : Service) : Operation -> nat -> Run Operation -> Prop :=
| LoopExit op p :
    done op = true -> loop_run svc op p (mkRun (Returned op) p [])
| LoopCut op p :
    done op = false -> loop_run svc op p (mkRun Diverged p [])
| LoopFault op p e :
    done op = false -> get_reply svc p = Raise e ->
    loop_run svc op p (mkRun (Raised e) (S p) (iteration op (Raise e)))
| LoopIter op p op' r :
    done op = false -> get_reply svc p = Ok op' ->
    loop_run svc op' (S p) r ->
    loop_run svc op p
      (mkRun (outcome r) (polled r) (iteration op (Ok op') ++ trace r)).

Inductive tail_run (svc : Service) (op : Operation) (p : nat)
  : Run unit -> Prop :=
| TailNoResponse :
    response op = None ->
    tail_run svc op p (mkRun (Raised AttributeError) p [EResponse op])
| TailNoVideo r :
    response op = Some r -> generated_videos r = [] ->
    tail_run svc op p (mkRun (Raised IndexError) p [EResponse op])
| TailDownloadFault r gv rest e :
    response op = Some r -> generated_videos r = gv :: rest ->
    download_reply svc = Raise e ->
    tail_run svc op p
      (mkRun (Raised e) p
         [EResponse op; EFilesDownload (video gv) (Raise e)])
| TailSaveFault r gv rest e :
    response op = Some r -> generated_videos r = gv :: rest ->
    download_reply svc = Ok tt -> save_reply svc = Raise e ->
    tail_run svc op p
      (mkRun (Raised e) p
         [EResponse op; EFilesDownload (video gv) (Ok tt);
          ESave (video gv) output_path (Raise e)])
| TailSaved r gv rest :
    response op = Some r -> generated_videos r = gv :: rest ->
    download_reply svc = Ok tt -> save_reply svc = Ok tt ->
    tail_run svc op p
      (mkRun (Returned tt) p
         [EResponse op; EFilesDownload (video gv) (Ok tt);
          ESave (video gv) output_path (Ok tt); EPrint saved_message]).

Inductive script_run (svc : Service) : Run unit -> Prop :=
| RunClientFault e :
    client_reply svc = Raise e ->
    script_run svc (mkRun (Raised e) 0 [EClient (Raise e)])
| RunGenerateFault e :
    client_reply svc = Ok tt -> generate_reply svc = Raise e ->
    script_run svc
      (mkRun (Raised e) 0
         [EClient (Ok tt); EGenerateVideos model prompt (Raise e)])
| RunLoopFault op0 l e :
    client_reply svc = Ok tt -> generate_reply svc = Ok op0 ->
    loop_run svc op0 0 l -> outcome l = Raised e ->
    script_run svc
      (mkRun (Raised e) (polled l)
         (EClient (Ok tt) :: EGenerateVideos model prompt (Ok op0)
            :: trace l))
| RunLoopCut op0 l :
    client_reply svc = Ok tt -> generate_reply svc = Ok op0 ->
    loop_run svc op0 0 l -> outcome l = Diverged ->
    script_run svc
      (mkRun Diverged (polled l)
         (EClient (Ok tt) :: EGenerateVideos model prompt (Ok op0)
            :: trace l))
| RunTail op0 l op d :
    client_reply svc = Ok tt -> generate_reply svc = Ok op0 ->
    loop_run svc op0 0 l -> outcome l = Returned op ->
    tail_run svc op (polled l) d ->
    script_run svc
      (mkRun (outcome d) (polled d)
         (EClient (Ok tt) :: EGenerateVideos model prompt (Ok op0)
            :: trace l ++ trace d)).

(** ** A scripted service for the examples

    The handle is pending when submitted and after the first poll, and done
    with two generated videos after the second poll. *)

Definition pending : Operation := mkOperation "operations/1" false None.

Definition video_a : GeneratedVideo := mkGeneratedVideo (mkVideo "files/a").

Definition video_b : GeneratedVideo := mkGeneratedVideo (mkVideo "files/b").

Definition finished_with (videos : list GeneratedVideo) : Operation :=
  mkOperation "operations/1" true (Some (mkResponse videos)).

Definition snapshots_with (videos : list GeneratedVideo) (k : nat)
  : Operation :=
  match k with
  | 0 | 1 => pending
  | _ => finished_with videos
  end.

Definition service_with (videos : list GeneratedVideo) : Service :=
  mkService (Ok tt) (Ok (snapshots_with videos 0))
            (fun k => Ok (snapshots_with videos (S k))) (Ok tt) (Ok tt).

Definition finished : Operation := finished_with [video_a; video_b].

Definition demo_snapshots : nat -> Operation :=
  snapshots_with [video_a; video_b].

Definition demo : Service := service_with [video_a; video_b].

(** A service whose handle is pending for the first [n] snapshots. *)
Definition pending_until (n k : nat) : Operation :=
  if Nat.ltb k n then pending else finished.

Definition patient (n : nat) : Service :=
  mkService (Ok tt) (Ok (pending_until n 0))
            (fun k => Ok (pending_until n (S k))) (Ok tt) (Ok tt).

(** The service [demo] up to the second poll, failing afterwards. *)
Definition demo_then_gone : Service :=
  mkService (Ok tt) (Ok pending)
            (fun k => match k with
                      | 0 => Ok pending
                      | 1 => Ok finished
                      | _ => Raise (RemoteError "gone")
                      end)
            (Ok tt) (Ok tt).

(** The same service, pending forever. *)
Definition stuck : Service :=
  mkService (Ok tt) (Ok pending) (fun _ => Ok pending) (Ok tt) (Ok tt).

(** The same service, whose second poll fails. *)
Definition flaky : Service :=
  mkService (Ok tt) (Ok pending)
            (fun k => match k with
                      | 0 => Ok pending
                      | _ => Raise (RemoteError "503")
                      end)
            (Ok tt) (Ok tt).

(** ** Lists *)

Lemma split_app {A} (pre : list A) : forall ev post l1 l2,
  pre ++ ev :: post = l1 ++ l2 ->
  (exists m, l1 = pre ++ ev :: m /\ post = m ++ l2) \/
  (exists m, pre = l1 ++ m /\ l2 = m ++ ev :: post).
Proof.
  induction pre as [|a pre IH]; intros ev post l1 l2 H.
  - destruct l1 as [|b l1]; simpl in H.
    + right. exists []. auto.
    + injection H as <- ->. left. exists l1. auto.
  - destruct l1 as [|b l1]; simpl in H.
    + right. exists (a :: pre). auto.
    + injection H as <- H. destruct (IH _ _ _ _ H) as [[m [-> ->]]|[m [-> ->]]].
      * left. exists m. auto.
      * right. exists m. auto.
Qed.

Lemma count_app f l1 l2 : count f (l1 ++ l2) = count f l1 + count f l2.
Proof. unfold count. now rewrite filter_app, length_app. Qed.

Lemma count_none f l :
  Forall (fun ev => f ev = false) l -> count f l = 0.
Proof.
  unfold count. induction 1 as [|ev l H _ IH]; simpl; auto. now rewrite H.
Qed.

(** ** The polling loop *)

Section Loop.

Variable svc : Service.

Lemma poll_loop_done fuel op p :
  done op = true -> poll_loop svc fuel op p = mkRun (Returned op) p [].
Proof. intros H. destruct fuel; simpl; rewrite H; reflexivity. Qed.

Lemma poll_loop_cut op p :
  done op = false -> poll_loop svc 0 op p = mkRun Diverged p [].
Proof. intros H. simpl. rewrite H. reflexivity. Qed.

Lemma poll_loop_iter fuel op op' p :
  done op = false -> get_reply svc p = Ok op' ->
  poll_loop svc (S fuel) op p =
    let r := poll_loop svc fuel op' (S p) in
    mkRun (outcome r) (polled r) (iteration op (Ok op') ++ trace r).
Proof.
  intros H G. simpl. rewrite H.
  unfold bind, print, sleep, emit, operations_get. simpl.
  rewrite G. reflexivity.
Qed.

Lemma poll_loop_fault fuel op e p :
  done op = false -> get_reply svc p = Raise e ->
  poll_loop svc (S fuel) op p =
    mkRun (Raised e) (S p) (iteration op (Raise e)).
Proof.
  intros H G. simpl. rewrite H.
  unfold bind, print, sleep, emit, operations_get. simpl.
  rewrite G. reflexivity.
Qed.

Lemma poll_loop_run fuel : forall op p,
  loop_run svc op p (poll_loop svc fuel op p).
Proof.
  induction fuel as [|fuel IH]; intros op p.
  - destruct (done op) eqn:D.
    + rewrite poll_loop_done by assumption. now constructor.
    + rewrite poll_loop_cut by assumption. now constructor.
  - destruct (done op) eqn:D.
    + rewrite poll_loop_done by assumption. now constructor.
    + destruct (get_reply svc p) as [op'|e] eqn:G.
      * rewrite (poll_loop_iter _ _ op') by assumption.
        cbv zeta. apply LoopIter; auto.
      * rewrite (poll_loop_fault _ _ e) by assumption.
        now constructor.
Qed.

(** Every event of the loop is a waiting message, a ten-second sleep or a
    poll. *)
Lemma loop_run_events op p r :
  loop_run svc op p r ->
  Forall (fun ev => is_loop_event ev = true) (trace r).
Proof.
  induction 1; cbn [trace]; auto.
  - repeat constructor.
  - apply Forall_app. split; auto. repeat constructor.
Qed.

(** The loop only returns a handle which is done, and it is the handle the
    script holds at that point. *)
Lemma loop_run_returns op p r :
  loop_run svc op p r ->
  forall op', outcome r = Returned op' ->
  done op' = true /\ fold_left observe (trace r) (Some op) = Some op'.
Proof.
  induction 1; cbn [outcome trace]; intros op1 E; try discriminate.
  - injection E as <-. auto.
  - destruct (IHloop_run _ E) as [D F]. split; [exact D|].
    rewrite fold_left_app. exact F.
Qed.

Lemma loop_run_polled op p r : loop_run svc op p r -> p <= polled r.
Proof. induction 1; cbn [polled]; lia. Qed.

End Loop.

(** *** The loop along a sequence of snapshots

    [s 0] is the handle the loop starts with and [s (S k)] the answer to
    the [k]-th poll. *)

Section Snapshots.

Variable svc : Service.
Variable s : nat -> Operation.

(** As long as the snapshots are not done the loop keeps turning. *)
Lemma poll_loop_advance n : forall fuel i,
  (forall k, i <= k < i + n ->
             done (s k) = false /\ get_reply svc k = Ok (s (S k))) ->
  poll_loop svc (n + fuel) (s i) i =
    let r := poll_loop svc fuel (s (i + n)) (i + n) in
    mkRun (outcome r) (polled r) (turns s i n ++ trace r).
Proof.
  induction n as [|n IH]; intros fuel i H.
  - rewrite Nat.add_0_r. simpl. now destruct (poll_loop svc fuel (s i) i).
  - change (S n + fuel) with (S (n + fuel)).
    destruct (H i) as [D G]; [lia|].
    rewrite (poll_loop_iter _ _ _ (s (S i))) by assumption.
    cbv zeta. rewrite IH by (intros; apply H; lia).
    cbn [outcome polled trace].
    replace (S i + n) with (i + S n) by lia.
    unfold turns. cbn [seq flat_map]. now rewrite <- app_assoc.
Qed.

Hypothesis polls : forall k, get_reply svc k = Ok (s (S k)).

Lemma poll_loop_returns fuel : forall i op,
  outcome (poll_loop svc fuel (s i) i) = Returned op ->
  exists n,
    op = s (i + n) /\ done (s (i + n)) = true /\
    (forall k, i <= k < i + n -> done (s k) = false) /\
    n <= fuel /\
    poll_loop svc fuel (s i) i = mkRun (Returned op) (i + n) (turns s i n).
Proof.
  induction fuel as [|fuel IH]; intros i op H.
  - destruct (done (s i)) eqn:D.
    + rewrite poll_loop_done in * by assumption. injection H as <-.
      exists 0. rewrite Nat.add_0_r. repeat split; auto; intros; lia.
    + rewrite poll_loop_cut in H by assumption. discriminate.
  - destruct (done (s i)) eqn:D.
    + rewrite poll_loop_done in * by assumption. injection H as <-.
      exists 0. rewrite Nat.add_0_r. repeat split; auto; intros; lia.
    + rewrite (poll_loop_iter _ _ _ (s (S i))) in * by auto.
      cbv zeta in *. cbn [outcome] in H.
      destruct (IH _ _ H) as (n & -> & Dn & Hn & Hf & E).
      exists (S n). replace (i + S n) with (S i + n) by lia.
      repeat split; auto.
      * intros k Hk. destruct (Nat.eq_dec k i) as [->|]; auto.
        apply Hn. lia.
      * lia.
      * rewrite E. reflexivity.
Qed.

Lemma poll_loop_not_cut fuel : forall i,
  outcome (poll_loop svc fuel (s i) i) <> Diverged ->
  exists n, done (s (i + n)) = true.
Proof.
  induction fuel as [|fuel IH]; intros i H.
  - destruct (done (s i)) eqn:D.
    + exists 0. now rewrite Nat.add_0_r.
    + rewrite poll_loop_cut in H by assumption. now elim H.
  - destruct (done (s i)) eqn:D.
    + exists 0. now rewrite Nat.add_0_r.
    + rewrite (poll_loop_iter _ _ _ (s (S i))) in H by auto.
      destruct (IH _ H) as [n Hn]. exists (S n).
      now replace (i + S n) with (S i + n) by lia.
Qed.

Lemma poll_loop_reaches n : forall i,
  done (s (i + n)) = true ->
  exists op, outcome (poll_loop svc n (s i) i) = Returned op.
Proof.
  induction n as [|n IH]; intros i H.
  - rewrite Nat.add_0_r in H. exists (s i).
    now rewrite poll_loop_done.
  - destruct (done (s i)) eqn:D.
    + exists (s i). now rewrite poll_loop_done.
    + rewrite (poll_loop_iter _ _ _ (s (S i))) by auto.
      apply IH. now replace (S i + n) with (i + S n) by lia.
Qed.

End Snapshots.

(** ** The whole script *)

Section Whole.

Variable svc : Service.

Lemma after_loop_run op p : tail_run svc op p (after_loop svc op p).
Proof.
  unfold after_loop, download_generated_video, response_generated_videos,
    index0, files_download, save, print, call, emit, bind.
  cbn [outcome polled trace].
  destruct (response op) as [r|] eqn:R; cbn; [|now constructor].
  destruct (generated_videos r) as [|gv rest] eqn:V; cbn;
    [now apply (TailNoVideo _ _ _ r)|].
  destruct (download_reply svc) as [[]|e] eqn:Dl; cbn;
    [|now apply (TailDownloadFault _ _ _ r gv rest)].
  destruct (save_reply svc) as [[]|e] eqn:Sv; cbn.
  - now apply (TailSaved _ _ _ r gv rest).
  - now apply (TailSaveFault _ _ _ r gv rest).
Qed.

Lemma tail_run_polled op p d : tail_run svc op p d -> polled d = p.
Proof. now destruct 1. Qed.

Lemma run_script_run fuel : script_run svc (run svc fuel).
Proof.
  unfold run, main.
  change (fun operation : Operation =>
            download_generated_video svc operation ;; print saved_message)
    with (after_loop svc).
  unfold Client, generate_videos, call.
  unfold bind at 1. cbn [outcome polled trace].
  destruct (client_reply svc) as [[]|e] eqn:C; [|now constructor].
  unfold bind at 1. cbn [outcome polled trace].
  destruct (generate_reply svc) as [op0|e] eqn:G; [|now constructor].
  unfold bind. cbv beta zeta. cbn [outcome polled trace app].
  pose proof (poll_loop_run svc fuel op0 0) as L.
  destruct (outcome (poll_loop svc fuel op0 0)) as [op|e|] eqn:O.
  - cbn [outcome polled trace].
    apply (RunTail _ op0 _ op); auto. apply after_loop_run.
  - now apply RunLoopFault.
  - now apply RunLoopCut.
Qed.

(** The run of the script once the loop has returned a handle. *)
Lemma run_after_loop fuel op0 op :
  client_reply svc = Ok tt -> generate_reply svc = Ok op0 ->
  outcome (poll_loop svc fuel op0 0) = Returned op ->
  run svc fuel =
    let l := poll_loop svc fuel op0 0 in
    let d := after_loop svc op (polled l) in
    mkRun (outcome d) (polled d)
      (EClient (Ok tt) :: EGenerateVideos model prompt (Ok op0)
         :: trace l ++ trace d).
Proof.
  intros C G O. unfold run, main.
  change (fun operation : Operation =>
            download_generated_video svc operation ;; print saved_message)
    with (after_loop svc).
  unfold Client, generate_videos, call.
  unfold bind at 1. cbn [outcome polled trace]. rewrite C.
  unfold bind at 1. cbn [outcome polled trace]. rewrite G.
  unfold bind. cbv beta zeta. cbn [outcome polled trace app].
  rewrite O. reflexivity.
Qed.

(** The lines after the loop on a handle with at least one video. *)
Lemma after_loop_first op r gv rest p :
  response op = Some r -> generated_videos r = gv :: rest ->
  after_loop svc op p =
    mkRun
      match download_reply svc, save_reply svc with
      | Ok _, Ok _ => Returned tt
      | Ok _, Raise e => Raised e
      | Raise e, _ => Raised e
      end p
      (EResponse op :: EFilesDownload (video gv) (download_reply svc)
         :: match download_reply svc with
            | Ok _ =>
                ESave (video gv) output_path (save_reply svc)
                  :: match save_reply svc with
                     | Ok _ => [EPrint saved_message]
                     | Raise _ => []
                     end
            | Raise _ => []
            end).
Proof.
  intros R V.
  unfold after_loop, download_generated_video, response_generated_videos,
    index0, files_download, save, print, call, emit, bind.
  cbn [outcome polled trace]. rewrite R. cbn. rewrite V. cbn.
  destruct (download_reply svc) as [[]|e]; cbn; auto.
  destruct (save_reply svc) as [[]|e]; cbn; auto.
Qed.

Lemma loop_event_not_tail ev :
  is_loop_event ev = true -> is_tail_event ev = false.
Proof.
  destruct ev; cbn; try discriminate; auto.
  intros H. apply String.eqb_eq in H. now subst.
Qed.

Lemma tail_event_keeps_handle ev cur :
  is_tail_event ev = true -> observe cur ev = cur.
Proof. destruct ev; cbn; try discriminate; auto. Qed.

Lemma tail_events_keep_handle m : forall cur,
  Forall (fun ev => is_tail_event ev = true) m ->
  fold_left observe m cur = cur.
Proof.
  induction m as [|ev m IH]; intros cur H; cbn; auto.
  inversion H; subst. rewrite tail_event_keeps_handle by assumption. auto.
Qed.

Lemma tail_run_events op p d :
  tail_run svc op p d -> Forall (fun ev => is_tail_event ev = true) (trace d).
Proof. destruct 1; cbn [trace]; repeat constructor. Qed.

Lemma tail_run_response op p d op' :
  tail_run svc op p d -> In (EResponse op') (trace d) -> op' = op.
Proof.
  intros D I. destruct D; cbn [trace In] in I;
    repeat (destruct I as [I|I]; [congruence|]); contradiction.
Qed.

(** An event of lines 19-22 occurs only once the loop has returned: the
    trace splits into the part up to the end of the loop and a part of the
    trace of these lines. *)
Lemma script_run_tail_split r pre ev post :
  script_run svc r -> trace r = pre ++ ev :: post ->
  is_tail_event ev = true ->
  exists op0 l op d m,
    loop_run svc op0 0 l /\ outcome l = Returned op /\
    tail_run svc op (polled l) d /\
    pre = EClient (Ok tt) :: EGenerateVideos model prompt (Ok op0)
            :: trace l ++ m /\
    trace d = m ++ ev :: post.
Proof.
  intros R E T.
  assert (No : forall (r0 : Reply Operation) tl m',
             EClient (Ok tt) :: EGenerateVideos model prompt r0 :: tl
               = pre ++ ev :: m' ->
             Forall (fun e => is_loop_event e = true) tl -> False).
  { intros r0 tl m' E' F.
    assert (I : In ev (EClient (Ok tt)
                         :: EGenerateVideos model prompt r0 :: tl))
      by (rewrite E'; apply in_elt).
    destruct I as [<-|[<-|I]]; try discriminate.
    rewrite Forall_forall in F. apply F in I.
    apply loop_event_not_tail in I. congruence. }
  destruct R as [e|e|op0 l e C G L O|op0 l C G L O|op0 l op d C G L O D];
    cbn [trace] in E.
  - destruct pre as [|? [|]]; try discriminate.
    injection E as <-. discriminate.
  - exfalso. symmetry in E. now apply (No (Raise e) [] post).
  - exfalso. symmetry in E.
    apply (No (Ok op0) (trace l) post); auto.
    eapply loop_run_events; eauto.
  - exfalso. symmetry in E.
    apply (No (Ok op0) (trace l) post); auto.
    eapply loop_run_events; eauto.
  - change (EClient (Ok tt) :: EGenerateVideos model prompt (Ok op0)
              :: trace l ++ trace d)
      with ((EClient (Ok tt) :: EGenerateVideos model prompt (Ok op0)
               :: trace l) ++ trace d) in E.
    symmetry in E.
    destruct (split_app _ _ _ _ _ E) as [[m [E1 _]]|[m [E1 E2]]].
    + exfalso. apply (No (Ok op0) (trace l) m); auto.
      eapply loop_run_events; eauto.
    + exists op0, l, op, d, m. repeat split; auto.
Qed.

(** A tail event finds the script holding the done handle the loop
    returned. *)
Lemma script_run_tail_handle r pre ev post :
  script_run svc r -> trace r = pre ++ ev :: post ->
  is_tail_event ev = true ->
  exists op,
    handle_after pre = Some op /\ done op = true /\
    (forall op', ev = EResponse op' -> op' = op) /\
    Forall (fun e => is_tail_event e = true) post.
Proof.
  intros R E T.
  destruct (script_run_tail_split _ _ _ _ R E T)
    as (op0 & l & op & d & m & L & O & D & -> & Ed).
  destruct (loop_run_returns _ _ _ _ L _ O) as [Dn H].
  pose proof (tail_run_events _ _ _ D) as F. rewrite Ed in F.
  apply Forall_app in F. destruct F as [Fm Fp].
  exists op. repeat split; auto.
  - unfold handle_after. cbn [fold_left observe].
    rewrite fold_left_app, H. now apply tail_events_keep_handle.
  - intros op' ->. apply (tail_run_response _ _ _ _ D).
    rewrite Ed. apply in_elt.
  - now inversion Fp.
Qed.

Lemma run_unfold fuel :
  run svc fuel =
    match client_reply svc with
    | Raise e => mkRun (Raised e) 0 [EClient (Raise e)]
    | Ok u =>
        match generate_reply svc with
        | Raise e =>
            mkRun (Raised e) 0
              [EClient (Ok u); EGenerateVideos model prompt (Raise e)]
        | Ok op0 =>
            let l := poll_loop svc fuel op0 0 in
            let head := [EClient (Ok u);
                         EGenerateVideos model prompt (Ok op0)] in
            match outcome l with
            | Returned op =>
                let d := after_loop svc op (polled l) in
                mkRun (outcome d) (polled d) (head ++ trace l ++ trace d)
            | Raised e => mkRun (Raised e) (polled l) (head ++ trace l)
            | Diverged => mkRun Diverged (polled l) (head ++ trace l)
            end
        end
    end.
Proof.
  unfold run, main.
  change (fun operation : Operation =>
            download_generated_video svc operation ;; print saved_message)
    with (after_loop svc).
  unfold Client, generate_videos, call.
  unfold bind at 1. cbn [outcome polled trace].
  destruct (client_reply svc) as [u|e]; [|reflexivity].
  unfold bind at 1. cbn [outcome polled trace].
  destruct (generate_reply svc) as [op0|e]; [|reflexivity].
  unfold bind. cbv beta zeta. cbn [outcome polled trace app].
  destruct (outcome (poll_loop svc fuel op0 0)); reflexivity.
Qed.

Lemma after_loop_polled op p : polled (after_loop svc op p) = p.
Proof. apply (tail_run_polled op p). apply after_loop_run. Qed.

(** Every sleep of a run lasts [poll_interval]. *)
Lemma script_run_sleeps r secs :
  script_run svc r -> In (ESleep secs) (trace r) -> secs = poll_interval.
Proof.
  assert (Lp : forall op0 p l, loop_run svc op0 p l ->
                 In (ESleep secs) (trace l) -> secs = poll_interval).
  { intros op0 p l L I. apply loop_run_events in L.
    rewrite Forall_forall in L. apply L in I. now apply Z.eqb_eq in I. }
  intros R I.
  destruct R as [e|e|op0 l e C G L O|op0 l C G L O|op0 l op d C G L O D];
    cbn [trace In] in I.
  - destruct I as [I|[]]; discriminate.
  - destruct I as [I|[I|[]]]; discriminate.
  - destruct I as [I|[I|I]]; try discriminate. eauto.
  - destruct I as [I|[I|I]]; try discriminate. eauto.
  - destruct I as [I|[I|I]]; try discriminate.
    apply in_app_or in I. destruct I as [I|I]; [eauto|].
    apply tail_run_events in D. rewrite Forall_forall in D.
    apply D in I. discriminate.
Qed.

End Whole.

(** ** Failed calls end the run *)

Section Faithful.

Variable svc : Service.

Lemma singleton_split {A} (x : A) pre ev post :
  [x] = pre ++ ev :: post -> pre = [] /\ ev = x /\ post = [].
Proof.
  destruct pre as [|a pre]; cbn; intros E.
  - injection E as -> <-. auto.
  - injection E as _ E. destruct pre; discriminate.
Qed.

Lemma faithful_silent {A} (r : Run A) : trace r = [] -> faithful r.
Proof.
  intros T pre ev post e E. rewrite T in E. destruct pre; discriminate.
Qed.

Lemma faithful_emit ev p : raised ev = None -> faithful (emit ev p).
Proof.
  intros N pre ev' post e E R. cbn in E.
  apply singleton_split in E. destruct E as (_ & -> & _). congruence.
Qed.

Lemma faithful_reply {A} (ev : Reply A -> Event) (r : Reply A) (q : nat) :
  (forall e, raised (ev (Raise e)) = Some e) ->
  (forall a, raised (ev (Ok a)) = None) ->
  faithful
    (mkRun (match r with Ok a => Returned a | Raise e => Raised e end)
       q [ev r]).
Proof.
  intros Hr Ho pre ev' post e E R. cbn [trace outcome] in *.
  apply singleton_split in E. destruct E as (_ & -> & ->).
  destruct r as [a|e0].
  - rewrite Ho in R. discriminate.
  - rewrite Hr in R. injection R as ->. auto.
Qed.

Lemma faithful_call {A} (ev : Reply A -> Event) (r : Reply A) p :
  (forall e, raised (ev (Raise e)) = Some e) ->
  (forall a, raised (ev (Ok a)) = None) ->
  faithful (call ev r p).
Proof. intros Hr Ho. now apply (faithful_reply ev r p). Qed.

Lemma faithful_get op p : faithful (operations_get svc op p).
Proof.
  now apply (faithful_reply (EOperationsGet op) (get_reply svc p) (S p)).
Qed.

Lemma faithful_bind {A B} (m : M A) (f : A -> M B) p :
  faithful (m p) -> (forall a q, faithful (f a q)) ->
  faithful (bind m f p).
Proof.
  intros Hm Hf pre ev post e E R. unfold bind in *.
  destruct (outcome (m p)) as [a|e0|] eqn:O; cbn [trace outcome] in *.
  - symmetry in E.
    destruct (split_app _ _ _ _ _ E) as [[k [E1 _]]|[k [_ E2]]].
    + destruct (Hm _ _ _ _ E1 R) as [_ O']. congruence.
    + exact (Hf _ _ _ _ _ _ E2 R).
  - destruct (Hm _ _ _ _ E R) as [-> O']. split; congruence.
  - destruct (Hm _ _ _ _ E R) as [_ O']. congruence.
Qed.

Lemma faithful_poll_loop fuel : forall op p,
  faithful (poll_loop svc fuel op p).
Proof.
  induction fuel as [|fuel IH]; intros op p; cbn [poll_loop];
    destruct (done op); try (now apply faithful_silent).
  apply faithful_bind; [now apply faithful_emit|intros _ q].
  apply faithful_bind; [now apply faithful_emit|intros _ q'].
  apply faithful_bind; [apply faithful_get|auto].
Qed.

Lemma faithful_download op p : faithful (download_generated_video svc op p).
Proof.
  unfold download_generated_video, response_generated_videos, index0.
  apply faithful_bind.
  - apply faithful_bind; [now apply faithful_emit|intros _ q].
    destruct (response op); now apply faithful_silent.
  - intros videos q. apply faithful_bind.
    + destruct (nth_error videos 0); now apply faithful_silent.
    + intros gv q'. apply faithful_bind; [|intros _ q''];
        now apply faithful_call.
Qed.

Lemma faithful_main fuel p : faithful (main svc fuel p).
Proof.
  unfold main.
  apply faithful_bind; [now apply faithful_call|intros _ q].
  apply faithful_bind; [now apply faithful_call|intros op0 q0].
  apply faithful_bind; [apply faithful_poll_loop|intros op q1].
  apply faithful_bind; [apply faithful_download|intros _ q2].
  now apply faithful_emit.
Qed.

End Faithful.

(** ** Two services which answer alike *)

Section Agree.

Variables svc1 svc2 : Service.

Lemma poll_loop_agree fuel1 : forall fuel2 op p,
  outcome (poll_loop svc1 fuel1 op p) <> Diverged ->
  outcome (poll_loop svc2 fuel2 op p) <> Diverged ->
  (forall k, p <= k < polled (poll_loop svc1 fuel1 op p) ->
             get_reply svc1 k = get_reply svc2 k) ->
  poll_loop svc1 fuel1 op p = poll_loop svc2 fuel2 op p.
Proof.
  induction fuel1 as [|fuel1 IH]; intros fuel2 op p N1 N2 P;
    destruct (done op) eqn:D.
  - now rewrite !poll_loop_done.
  - rewrite poll_loop_cut in N1 by assumption. now elim N1.
  - now rewrite !poll_loop_done.
  - destruct fuel2 as [|fuel2].
    { rewrite poll_loop_cut in N2 by assumption. now elim N2. }
    destruct (get_reply svc1 p) as [op'|e] eqn:G1.
    + rewrite (poll_loop_iter _ _ _ op') in * by assumption.
      cbv zeta in *. cbn [outcome polled] in *.
      pose proof (loop_run_polled _ _ _ _
                    (poll_loop_run svc1 fuel1 op' (S p))) as Le.
      assert (G2 : get_reply svc2 p = Ok op')
        by (rewrite <- (P p), G1; auto; lia).
      rewrite (poll_loop_iter _ _ _ op') in * by assumption.
      cbv zeta in *. cbn [outcome] in N2.
      rewrite (IH fuel2 op' (S p)); auto.
      intros k Hk. apply P. lia.
    + rewrite (poll_loop_fault _ _ _ e) in * by assumption.
      cbn [polled] in P.
      assert (G2 : get_reply svc2 p = Raise e)
        by (rewrite <- (P p), G1; auto; lia).
      now rewrite (poll_loop_fault _ _ _ e) by assumption.
Qed.

Lemma after_loop_agree op p :
  download_reply svc1 = download_reply svc2 ->
  save_reply svc1 = save_reply svc2 ->
  after_loop svc1 op p = after_loop svc2 op p.
Proof.
  intros Dl Sv.
  unfold after_loop, download_generated_video, files_download, save.
  now rewrite Dl, Sv.
Qed.

End Agree.

(** ** Counting along a sequence of snapshots *)

Lemma count_sleep_turns s n : forall i, count is_sleep (turns s i n) = n.
Proof.
  induction n as [|n IH]; intros i; [reflexivity|].
  unfold turns in *. cbn [seq flat_map]. rewrite count_app, IH. reflexivity.
Qed.

Lemma slept_app l1 l2 : slept (l1 ++ l2) = (slept l1 + slept l2)%Z.
Proof.
  induction l1 as [|ev l1 IH]; cbn; [reflexivity|].
  fold (slept (l1 ++ l2)). fold (slept l1). rewrite IH.
  destruct ev; lia.
Qed.

Lemma slept_turns s n : forall i,
  slept (turns s i n) = (poll_interval * Z.of_nat n)%Z.
Proof.
  induction n as [|n IH]; intros i; [reflexivity|].
  unfold turns in *. cbn [seq flat_map]. rewrite slept_app, IH.
  cbn [slept iteration fold_right]. unfold poll_interval. lia.
Qed.

Lemma loop_run_iterations svc op p r :
  loop_run svc op p r ->
  exists its : list (Operation * Reply Operation),
    trace r = flat_map (fun x => iteration (fst x) (snd x)) its.
Proof.
  induction 1 as [op p D|op p D|op p e D G|op p op' r D G L [its IH]];
    cbn [trace].
  - now exists [].
  - now exists [].
  - now exists [(op, Raise e)].
  - exists ((op, Ok op') :: its). cbn [flat_map fst snd]. now rewrite IH.
Qed.

(** ** Examples *)

Example demo_run :
  run demo 2 =
    mkRun (Returned tt) 2
      [EClient (Ok tt); EGenerateVideos model prompt (Ok pending);
       EPrint waiting_message; ESleep 10;
       EOperationsGet pending (Ok pending);
       EPrint waiting_message; ESleep 10;
       EOperationsGet pending (Ok finished);
       EResponse finished; EFilesDownload (mkVideo "files/a") (Ok tt);
       ESave (mkVideo "files/a") "style_example.mp4" (Ok tt);
       EPrint "Generated video saved to style_example.mp4"].
Proof. reflexivity. Qed.

(** With a budget of one turn the same run is cut off inside the loop. *)
Example demo_run_cut :
  run demo 1 =
    mkRun Diverged 1
      [EClient (Ok tt); EGenerateVideos model prompt (Ok pending);
       EPrint waiting_message; ESleep 10;
       EOperationsGet pending (Ok pending)].
Proof. reflexivity. Qed.

Example flaky_run :
  run flaky 5 =
    mkRun (Raised (RemoteError "503")) 2
      [EClient (Ok tt); EGenerateVideos model prompt (Ok pending);
       EPrint waiting_message; ESleep 10;
       EOperationsGet pending (Ok pending);
       EPrint waiting_message; ESleep 10;
       EOperationsGet pending (Raise (RemoteError "503"))].
Proof. reflexivity. Qed.

Example submit_fails :
  run (mkService (Ok tt) (Raise (RemoteError "quota"))
         (fun _ => Ok finished) (Ok tt) (Ok tt)) 5 =
    mkRun (Raised (RemoteError "quota")) 0
      [EClient (Ok tt);
       EGenerateVideos model prompt (Raise (RemoteError "quota"))].
Proof. reflexivity. Qed.

Example download_fails :
  run (mkService (Ok tt) (Ok finished) (fun _ => Ok finished)
         (Raise (RemoteError "network")) (Ok tt)) 5 =
    mkRun (Raised (RemoteError "network")) 0
      [EClient (Ok tt); EGenerateVideos model prompt (Ok finished);
       EResponse finished;
       EFilesDownload (mkVideo "files/a") (Raise (RemoteError "network"))].
Proof. reflexivity. Qed.

Example save_fails :
  run (mkService (Ok tt) (Ok finished) (fun _ => Ok finished)
         (Ok tt) (Raise (RemoteError "disk"))) 5 =
    mkRun (Raised (RemoteError "disk")) 0
      [EClient (Ok tt); EGenerateVideos model prompt (Ok finished);
       EResponse finished; EFilesDownload (mkVideo "files/a") (Ok tt);
       ESave (mkVideo "files/a") "style_example.mp4"
         (Raise (RemoteError "disk"))].
Proof. reflexivity. Qed.

(** A done handle without response: the read of [generated_videos] fails. *)
Example response_missing :
  run (mkService (Ok tt) (Ok (mkOperation "operations/1" true None))
         (fun _ => Ok finished) (Ok tt) (Ok tt)) 5 =
    mkRun (Raised AttributeError) 0
      [EClient (Ok tt);
       EGenerateVideos model prompt
         (Ok (mkOperation "operations/1" true None));
       EResponse (mkOperation "operations/1" true None)].
Proof. reflexivity. Qed.

(** On a service which never reports completion the loop exhausts every
    budget, one turn per unit. *)
Example stuck_never_returns fuel : forall p,
  outcome (poll_loop stuck fuel pending p) = Diverged /\
  count is_sleep (trace (poll_loop stuck fuel pending p)) = fuel.
Proof.
  induction fuel as [|fuel IH]; intros p.
  - now rewrite poll_loop_cut.
  - rewrite (poll_loop_iter _ _ _ pending) by reflexivity.
    cbv zeta. cbn [outcome trace]. destruct (IH (S p)) as [O C].
    split; [exact O|]. rewrite count_app, C. reflexivity.
Qed.

(** ** The claims *)

(** C1.  Along any sequence of snapshots the polling loop terminates if and
    only if some snapshot is done.  When it returns, it returns the first
    done snapshot after one sleep-and-poll turn for each snapshot before it;
    and as long as the snapshots are not done, the loop has made one turn
    for each of them and is still running on the next one. *)
Theorem poll_loop_terminates_iff_done svc (s : nat -> Operation) :
  (forall k, get_reply svc k = Ok (s (S k))) ->
  ((exists fuel, outcome (poll_loop svc fuel (s 0) 0) <> Diverged) <->
   (exists n, done (s n) = true)) /\
  (forall fuel op,
     outcome (poll_loop svc fuel (s 0) 0) = Returned op ->
     exists n,
       op = s n /\ done (s n) = true /\
       (forall k, k < n -> done (s k) = false) /\
       trace (poll_loop svc fuel (s 0) 0) = iterations s n) /\
  (forall n fuel,
     (forall k, k < n -> done (s k) = false) ->
     poll_loop svc (n + fuel) (s 0) 0 =
       let r := poll_loop svc fuel (s n) n in
       mkRun (outcome r) (polled r) (iterations s n ++ trace r)).
Proof.
  intros polls. split; [split|split].
  - intros [fuel H]. destruct (poll_loop_not_cut svc s polls fuel 0 H) as [n D].
    now exists n.
  - intros [n D]. exists n.
    destruct (poll_loop_reaches svc s polls n 0 D) as [op E].
    rewrite E. discriminate.
  - intros fuel op H.
    destruct (poll_loop_returns svc s polls fuel 0 op H)
      as (n & -> & D & N & _ & E).
    exists n. cbn [Nat.add] in *. repeat split; auto.
    + intros k Hk. apply N. lia.
    + rewrite E. reflexivity.
  - intros n fuel N.
    apply (poll_loop_advance svc s n fuel 0).
    intros k Hk. split; [apply N; lia|apply polls].
Qed.

Lemma poll_loop_terminates_iff_done_witness :
  (forall k, get_reply demo k = Ok (demo_snapshots (S k))) /\
  ((exists fuel,
      outcome (poll_loop demo fuel (demo_snapshots 0) 0) <> Diverged) <->
   (exists n, done (demo_snapshots n) = true)).
Proof.
  split; [reflexivity|].
  apply (poll_loop_terminates_iff_done demo demo_snapshots). reflexivity.
Defined.

(** C2.  On a handle whose response lists at least one video, the retrieval
    step reads the response, asks for the download of the video of the first
    entry and, when the download returns, saves that same video; the other
    entries play no part. *)
Theorem download_selects_first svc op r gv rest p :
  response op = Some r -> generated_videos r = gv :: rest ->
  nth_error (generated_videos r) 0 = Some gv /\
  trace (download_generated_video svc op p) =
    EResponse op :: EFilesDownload (video gv) (download_reply svc)
      :: match download_reply svc with
         | Ok _ => [ESave (video gv) output_path (save_reply svc)]
         | Raise _ => []
         end.
Proof.
  intros R V. split; [now rewrite V|].
  unfold download_generated_video, response_generated_videos,
    index0, files_download, save, call, emit, bind.
  cbn [outcome polled trace]. rewrite R. cbn. rewrite V. cbn.
  destruct (download_reply svc); reflexivity.
Qed.

Lemma download_selects_first_witness :
  trace (download_generated_video demo finished 2) =
    [EResponse finished; EFilesDownload (mkVideo "files/a") (Ok tt);
     ESave (mkVideo "files/a") "style_example.mp4" (Ok tt)].
Proof.
  apply (download_selects_first demo finished
           (mkResponse [video_a; video_b]) video_a [video_b] 2);
    reflexivity.
Defined.

(** C4.  When the handle is pending at submission and after the first
    poll, and done with one video after the second poll, the script makes
    exactly two sleep-and-poll turns, prints the waiting message exactly
    twice, and then issues exactly one save call. *)
Theorem two_pending_then_done svc op0 op1 op2 r gv fuel :
  client_reply svc = Ok tt ->
  generate_reply svc = Ok op0 -> done op0 = false ->
  get_reply svc 0 = Ok op1 -> done op1 = false ->
  get_reply svc 1 = Ok op2 -> done op2 = true ->
  response op2 = Some r -> generated_videos r = [gv] ->
  download_reply svc = Ok tt ->
  2 <= fuel ->
  trace (run svc fuel) =
    [EClient (Ok tt); EGenerateVideos model prompt (Ok op0);
     EPrint waiting_message; ESleep 10; EOperationsGet op0 (Ok op1);
     EPrint waiting_message; ESleep 10; EOperationsGet op1 (Ok op2);
     EResponse op2; EFilesDownload (video gv) (Ok tt);
     ESave (video gv) output_path (save_reply svc)]
    ++ match save_reply svc with
       | Ok _ => [EPrint saved_message]
       | Raise _ => []
       end /\
  count is_sleep (trace (run svc fuel)) = 2 /\
  count is_get (trace (run svc fuel)) = 2 /\
  count (is_print waiting_message) (trace (run svc fuel)) = 2 /\
  count is_save (trace (run svc fuel)) = 1.
Proof.
  intros C G D0 G0 D1 G1 D2 R V Dl F.
  destruct fuel as [|[|fuel]]; try lia.
  assert (L : poll_loop svc (S (S fuel)) op0 0 =
              mkRun (Returned op2) 2
                (iteration op0 (Ok op1) ++ iteration op1 (Ok op2))).
  { rewrite (poll_loop_iter _ _ _ op1) by assumption. cbv zeta.
    rewrite (poll_loop_iter _ _ _ op2) by assumption. cbv zeta.
    rewrite poll_loop_done by assumption. reflexivity. }
  rewrite (run_after_loop svc _ op0 op2) by (auto; now rewrite L).
  rewrite L. cbv zeta. cbn [outcome polled trace].
  rewrite (after_loop_first svc op2 r gv []) by assumption.
  rewrite Dl. cbn [trace].
  destruct (save_reply svc); repeat split; reflexivity.
Qed.

Lemma two_pending_then_done_witness :
  count is_sleep (trace (run (service_with [video_a]) 5)) = 2 /\
  count is_get (trace (run (service_with [video_a]) 5)) = 2 /\
  count (is_print waiting_message)
        (trace (run (service_with [video_a]) 5)) = 2 /\
  count is_save (trace (run (service_with [video_a]) 5)) = 1.
Proof.
  apply (two_pending_then_done (service_with [video_a])
           pending pending (finished_with [video_a])
           (mkResponse [video_a]) video_a 5);
    try reflexivity.
  lia.
Defined.

(** C3.  Wherever a save call occurs in a run of the script, the handle the
    script holds at that point, the latest snapshot it has received, is
    done: no save is issued while the handle is not done. *)
Theorem save_only_after_done svc fuel pre v path rep post :
  trace (run svc fuel) = pre ++ ESave v path rep :: post ->
  exists op, handle_after pre = Some op /\ done op = true.
Proof.
  intros E.
  destruct (script_run_tail_handle svc _ _ _ _ (run_script_run svc fuel) E)
    as (op & H & D & _); [reflexivity|].
  now exists op.
Qed.

Lemma save_only_after_done_witness :
  exists op,
    handle_after
      [EClient (Ok tt); EGenerateVideos model prompt (Ok pending);
       EPrint waiting_message; ESleep 10;
       EOperationsGet pending (Ok pending);
       EPrint waiting_message; ESleep 10;
       EOperationsGet pending (Ok finished);
       EResponse finished; EFilesDownload (video video_a) (Ok tt)]
    = Some op /\ done op = true.
Proof.
  apply (save_only_after_done demo 2 _ (video video_a) output_path (Ok tt)
           [EPrint saved_message]).
  reflexivity.
Defined.

(** C7.  Wherever the response of a handle is read in a run of the script,
    that handle is done and is the one the script holds, and neither a sleep
    nor a poll follows: the loop has been left. *)
Theorem response_read_only_when_done svc fuel pre op post :
  trace (run svc fuel) = pre ++ EResponse op :: post ->
  done op = true /\ handle_after pre = Some op /\
  Forall (fun ev => is_sleep ev = false /\ is_get ev = false) post.
Proof.
  intros E.
  destruct (script_run_tail_handle svc _ _ _ _ (run_script_run svc fuel) E)
    as (op' & H & D & Eq & F); [reflexivity|].
  rewrite (Eq op eq_refl). repeat split; auto.
  rewrite Forall_forall in *. intros ev I. apply F in I.
  destruct ev; try discriminate; auto.
Qed.

Lemma response_read_only_when_done_witness :
  done finished = true /\
  handle_after
    [EClient (Ok tt); EGenerateVideos model prompt (Ok pending);
     EPrint waiting_message; ESleep 10;
     EOperationsGet pending (Ok pending);
     EPrint waiting_message; ESleep 10;
     EOperationsGet pending (Ok finished)] = Some finished /\
  Forall (fun ev => is_sleep ev = false /\ is_get ev = false)
    [EFilesDownload (video video_a) (Ok tt);
     ESave (video video_a) output_path (Ok tt); EPrint saved_message].
Proof.
  apply (response_read_only_when_done demo 2). reflexivity.
Defined.

(** C8.  A run of the script which returns has made exactly one save call,
    to the path "style_example.mp4", which succeeded, and the completion
    message is printed right after it as the last event of the run. *)
Theorem success_saves_one_file svc fuel :
  outcome (run svc fuel) = Returned tt ->
  output_path = "style_example.mp4" /\
  count is_save (trace (run svc fuel)) = 1 /\
  exists pre v,
    trace (run svc fuel) =
      pre ++ [ESave v output_path (Ok tt); EPrint saved_message].
Proof.
  intros O. split; [reflexivity|].
  destruct (run_script_run svc fuel)
    as [e|e|op0 l e C G L Ol|op0 l C G L Ol|op0 l op d C G L Ol D];
    try discriminate.
  cbn [outcome trace] in *.
  destruct D; try discriminate. cbn [trace]. split.
  - change (EClient (Ok tt) :: EGenerateVideos model prompt (Ok op0)
              :: trace l ++ ?t)
      with ([EClient (Ok tt); EGenerateVideos model prompt (Ok op0)]
              ++ trace l ++ t).
    rewrite !count_app. rewrite (count_none is_save (trace l)); [reflexivity|].
    eapply Forall_impl; [|eapply loop_run_events; eauto].
    intros ev Hev. destruct ev; try discriminate; reflexivity.
  - exists (EClient (Ok tt) :: EGenerateVideos model prompt (Ok op0)
              :: trace l ++ [EResponse op; EFilesDownload (video gv) (Ok tt)]),
      (video gv).
    cbn [app]. now rewrite <- app_assoc.
Qed.

Lemma success_saves_one_file_witness :
  outcome (run demo 2) = Returned tt /\
  count is_save (trace (run demo 2)) = 1.
Proof.
  split; [reflexivity|].
  apply (success_saves_one_file demo 2). reflexivity.
Defined.

(** C9.  When the loop returns a handle whose response lists no video, the
    retrieval step raises an index error right after reading the response:
    the run ends there with that error, without a download or a save
    call. *)
Theorem no_video_index_error svc fuel op0 op r :
  client_reply svc = Ok tt -> generate_reply svc = Ok op0 ->
  outcome (poll_loop svc fuel op0 0) = Returned op ->
  response op = Some r -> generated_videos r = [] ->
  done op = true /\
  (forall p,
     download_generated_video svc op p =
       mkRun (Raised IndexError) p [EResponse op]) /\
  outcome (run svc fuel) = Raised IndexError /\
  trace (run svc fuel) =
    EClient (Ok tt) :: EGenerateVideos model prompt (Ok op0)
      :: trace (poll_loop svc fuel op0 0) ++ [EResponse op] /\
  count is_download (trace (run svc fuel)) = 0 /\
  count is_save (trace (run svc fuel)) = 0.
Proof.
  intros C G O R V.
  split.
  { apply (loop_run_returns svc op0 0 _ (poll_loop_run svc fuel op0 0) op O). }
  assert (T : forall p,
             download_generated_video svc op p =
               mkRun (Raised IndexError) p [EResponse op]).
  { intros p.
    unfold download_generated_video, response_generated_videos, index0,
      emit, bind.
    cbn [outcome polled trace]. rewrite R. cbn. rewrite V. reflexivity. }
  split; [exact T|].
  rewrite (run_after_loop svc fuel op0 op) by assumption. cbv zeta.
  unfold after_loop, bind. rewrite T. cbn [outcome polled trace].
  assert (N : forall f,
             (forall ev, is_loop_event ev = true -> f ev = false) ->
             f (EClient (Ok tt)) = false ->
             f (EGenerateVideos model prompt (Ok op0)) = false ->
             f (EResponse op) = false ->
             count f (EClient (Ok tt)
                        :: EGenerateVideos model prompt (Ok op0)
                        :: trace (poll_loop svc fuel op0 0)
                             ++ [EResponse op]) = 0).
  { intros f Hl Hc Hg Hr. apply count_none.
    repeat constructor; auto. apply Forall_app. split.
    - eapply Forall_impl; [|eapply loop_run_events, poll_loop_run].
      exact Hl.
    - repeat constructor; auto. }
  repeat split; apply N; auto; intros ev; destruct ev; auto; discriminate.
Qed.

Lemma no_video_index_error_witness :
  done (finished_with []) = true /\
  (forall p,
     download_generated_video (service_with []) (finished_with []) p =
       mkRun (Raised IndexError) p [EResponse (finished_with [])]) /\
  outcome (run (service_with []) 2) = Raised IndexError /\
  trace (run (service_with []) 2) =
    EClient (Ok tt) :: EGenerateVideos model prompt (Ok pending)
      :: trace (poll_loop (service_with []) 2 pending 0)
           ++ [EResponse (finished_with [])] /\
  count is_download (trace (run (service_with []) 2)) = 0 /\
  count is_save (trace (run (service_with []) 2)) = 0.
Proof.
  apply (no_video_index_error (service_with []) 2 pending
           (finished_with []) (mkResponse []));
    reflexivity.
Defined.

(** C5.  If any call of a run raised an exception, that call is the last
    event of the run and the exception is the outcome of the run: nothing
    catches it, retries the call or goes on after it. *)
Theorem failures_propagate svc fuel pre ev post e :
  trace (run svc fuel) = pre ++ ev :: post -> raised ev = Some e ->
  post = [] /\ outcome (run svc fuel) = Raised e.
Proof. apply faithful_main. Qed.

Lemma failures_propagate_witness :
  @nil Event = [] /\ outcome (run flaky 5) = Raised (RemoteError "503").
Proof.
  apply (failures_propagate flaky 5
           [EClient (Ok tt); EGenerateVideos model prompt (Ok pending);
            EPrint waiting_message; ESleep 10;
            EOperationsGet pending (Ok pending);
            EPrint waiting_message; ESleep 10]
           (EOperationsGet pending (Raise (RemoteError "503"))) []
           (RemoteError "503"));
    reflexivity.
Defined.

(** C6.  The interval is ten seconds.  The trace of the loop is a sequence
    of turns, each a waiting message, a sleep of that interval and a poll;
    every sleep of a run lasts ten seconds.  The number of turns is not
    bounded: whatever [n], when the first [n] snapshots are not done and the
    next one is, the loop makes [n] turns, sleeps [10 * n] seconds and
    returns, and for every [n] there is a service on which the script makes
    [n] turns and succeeds. *)
Theorem fixed_interval_no_bound :
  poll_interval = 10%Z /\
  (forall svc fuel op p,
     exists its : list (Operation * Reply Operation),
       trace (poll_loop svc fuel op p) =
         flat_map (fun x => [EPrint waiting_message; ESleep poll_interval;
                             EOperationsGet (fst x) (snd x)]) its) /\
  (forall svc fuel secs,
     In (ESleep secs) (trace (run svc fuel)) -> secs = 10%Z) /\
  (forall svc s n fuel,
     (forall k, k < n ->
                done (s k) = false /\ get_reply svc k = Ok (s (S k))) ->
     done (s n) = true -> n <= fuel ->
     poll_loop svc fuel (s 0) 0 = mkRun (Returned (s n)) n (iterations s n) /\
     count is_sleep (iterations s n) = n /\
     slept (iterations s n) = (10 * Z.of_nat n)%Z) /\
  (forall n,
     outcome (run (patient n) n) = Returned tt /\
     count is_sleep (trace (run (patient n) n)) = n).
Proof.
  assert (Adv : forall svc s n fuel,
            (forall k, k < n ->
                       done (s k) = false /\ get_reply svc k = Ok (s (S k))) ->
            done (s n) = true -> n <= fuel ->
            poll_loop svc fuel (s 0) 0 =
              mkRun (Returned (s n)) n (iterations s n)).
  { intros svc s n fuel H D F.
    replace fuel with (n + (fuel - n)) by lia.
    rewrite (poll_loop_advance svc s n (fuel - n) 0)
      by (intros k Hk; apply H; lia).
    cbn [Nat.add]. cbv zeta. rewrite poll_loop_done by assumption.
    cbn [outcome polled trace]. now rewrite app_nil_r. }
  split; [reflexivity|]. split; [|split; [|split]].
  - intros svc fuel op p.
    apply (loop_run_iterations svc op p), poll_loop_run.
  - intros svc fuel secs I.
    apply (script_run_sleeps svc _ _ (run_script_run svc fuel) I).
  - intros svc s n fuel H D F. split; [now apply Adv|]. split.
    + apply count_sleep_turns.
    + apply slept_turns.
  - intros n.
    assert (L : poll_loop (patient n) n (pending_until n 0) 0 =
                mkRun (Returned (pending_until n n)) n
                  (iterations (pending_until n) n)).
    { apply Adv; auto.
      - intros k Hk. unfold pending_until.
        apply Nat.ltb_lt in Hk. now rewrite Hk.
      - unfold pending_until. now rewrite Nat.ltb_irrefl. }
    assert (E : pending_until n n = finished)
      by (unfold pending_until; now rewrite Nat.ltb_irrefl).
    rewrite E in L.
    rewrite (run_after_loop (patient n) n (pending_until n 0) finished)
      by (auto; now rewrite L).
    rewrite L. cbv zeta. cbn [outcome polled trace].
    rewrite (after_loop_first (patient n) finished
               (mkResponse [video_a; video_b]) video_a [video_b])
      by reflexivity.
    cbn [outcome trace patient download_reply save_reply]. split; auto.
    change (EClient (Ok tt)
              :: EGenerateVideos model prompt (Ok (pending_until n 0))
              :: iterations (pending_until n) n ++ ?t)
      with ([EClient (Ok tt);
             EGenerateVideos model prompt (Ok (pending_until n 0))]
              ++ iterations (pending_until n) n ++ t).
    rewrite !count_app. unfold iterations. rewrite count_sleep_turns.
    cbn. lia.
Qed.

Lemma fixed_interval_no_bound_witness :
  poll_loop demo 5 (demo_snapshots 0) 0 =
    mkRun (Returned (demo_snapshots 2)) 2 (iterations demo_snapshots 2) /\
  count is_sleep (iterations demo_snapshots 2) = 2 /\
  slept (iterations demo_snapshots 2) = (10 * Z.of_nat 2)%Z.
Proof.
  apply (proj1 (proj2 (proj2 (proj2 fixed_interval_no_bound)))
           demo demo_snapshots 2 5).
  - intros k Hk. destruct k as [|[|k]]; [split; reflexivity ..|lia].
  - reflexivity.
  - lia.
Defined.

(** C10.  Two complete runs of the script are equal, outcome and trace,
    as soon as the two services give the same replies to the calls the
    first run made: the outcome of creating the client, the submitted
    handle, the answer to each poll it issued, and the outcomes of the
    download and of the save.  What a service would have answered to later
    polls, and the iteration budgets, play no part. *)
Theorem run_deterministic svc1 svc2 fuel1 fuel2 :
  client_reply svc1 = client_reply svc2 ->
  generate_reply svc1 = generate_reply svc2 ->
  (forall k, k < polled (run svc1 fuel1) ->
             get_reply svc1 k = get_reply svc2 k) ->
  download_reply svc1 = download_reply svc2 ->
  save_reply svc1 = save_reply svc2 ->
  outcome (run svc1 fuel1) <> Diverged ->
  outcome (run svc2 fuel2) <> Diverged ->
  run svc1 fuel1 = run svc2 fuel2.
Proof.
  intros C G P Dl Sv N1 N2.
  rewrite !run_unfold in *. rewrite <- C, <- G in *.
  destruct (client_reply svc1) as [u|e]; [|reflexivity].
  destruct (generate_reply svc1) as [op0|e]; [|reflexivity].
  cbv zeta in *.
  assert (L : poll_loop svc1 fuel1 op0 0 = poll_loop svc2 fuel2 op0 0).
  { apply poll_loop_agree.
    - intros O. rewrite O in N1. now apply N1.
    - intros O. rewrite O in N2. now apply N2.
    - intros k [_ Hk]. apply P.
      destruct (outcome (poll_loop svc1 fuel1 op0 0)); cbn [polled]; auto.
      now rewrite after_loop_polled. }
  rewrite <- L.
  destruct (outcome (poll_loop svc1 fuel1 op0 0)); auto.
  now rewrite (after_loop_agree svc1 svc2).
Qed.

Lemma run_deterministic_witness : run demo 2 = run demo_then_gone 7.
Proof.
  apply (run_deterministic demo demo_then_gone 2 7); try reflexivity.
  - intros k Hk. destruct k as [|[|k]]; [reflexivity ..|].
    exfalso. vm_compute in Hk. lia.
  - discriminate.
  - discriminate.
Defined.

(** ** Further properties of the script *)

Lemma split_cons {A} (a : A) l pre ev post :
  a :: l = pre ++ ev :: post ->
  (pre = [] /\ ev = a /\ post = l) \/
  (exists pre', pre = a :: pre' /\ l = pre' ++ ev :: post).
Proof.
  destruct pre as [|b pre]; cbn; intros E; injection E as -> ->.
  - left. auto.
  - right. now exists pre.
Qed.

(** Walk through the positions of an event in a list whose first elements
    are explicit. *)
Ltac walk E :=
  repeat
    (let pre' := fresh "pre" in
     let Hev := fresh "Hev" in
     apply split_cons in E;
     destruct E as [(-> & Hev & ->)|(pre' & -> & E)];
     [try discriminate Hev; try (rewrite Hev in *; discriminate)|]);
  try solve [exfalso; eapply app_cons_not_nil; exact E].

Section Further.

Variable svc : Service.

(** A poll inside the loop is made with the handle held at that point, which
    is not done, receives the next scripted reply, and comes right after a
    waiting message and a sleep. *)
Lemma loop_run_get op0 p l :
  loop_run svc op0 p l ->
  forall pre op r post,
    trace l = pre ++ EOperationsGet op r :: post ->
    fold_left observe pre (Some op0) = Some op /\
    done op = false /\
    r = get_reply svc (p + count is_get pre) /\
    exists pre', pre = pre' ++ [EPrint waiting_message; ESleep poll_interval].
Proof.
  induction 1 as [op1 p D|op1 p D|op1 p e D G|op1 p op' r1 D G L IH];
    intros pre op r post E; cbn [trace] in E.
  - destruct pre; discriminate.
  - destruct pre; discriminate.
  - unfold iteration in E. walk E.
    match goal with
    | H : EOperationsGet _ _ = EOperationsGet _ _ |- _ =>
        injection H as -> ->
    end.
    cbn. rewrite Nat.add_0_r. repeat split; auto. now exists [].
  - unfold iteration in E. cbn [app] in E. walk E.
    + match goal with
      | H : EOperationsGet _ _ = EOperationsGet _ _ |- _ =>
          injection H as -> ->
      end.
      cbn. rewrite Nat.add_0_r. repeat split; auto. now exists [].
    + destruct (IH _ _ _ _ E) as (F & Dn & Er & pre' & ->).
      cbn [fold_left observe]. repeat split; auto.
      * rewrite Er. f_equal. unfold count. cbn. lia.
      * exists (EPrint waiting_message :: ESleep poll_interval
                  :: EOperationsGet op1 (Ok op') :: pre').
        reflexivity.
Qed.

(** In any run of the loop there are as many waiting messages and sleeps as
    polls, and the poll counter advances by that number. *)
Lemma loop_run_balance op0 p l :
  loop_run svc op0 p l ->
  polled l = p + count is_get (trace l) /\
  count is_sleep (trace l) = count is_get (trace l) /\
  count (is_print waiting_message) (trace l) = count is_get (trace l) /\
  slept (trace l) = (poll_interval * Z.of_nat (count is_get (trace l)))%Z.
Proof.
  induction 1 as [op1 p D|op1 p D|op1 p e D G|op1 p op' r1 D G L IH];
    cbn [trace polled].
  - cbn. repeat split; lia.
  - cbn. repeat split; lia.
  - cbn. repeat split; lia.
  - destruct IH as (P & S & W & Z).
    rewrite !count_app, slept_app, P, S, W, Z.
    change (count is_get (iteration op1 (Ok op'))) with 1.
    change (count is_sleep (iteration op1 (Ok op'))) with 1.
    change (count (is_print waiting_message) (iteration op1 (Ok op')))
      with 1.
    change (slept (iteration op1 (Ok op'))) with (poll_interval + 0)%Z.
    repeat split; lia.
Qed.


(** A poll of a run of the script lies in the run of its loop. *)
Lemma script_run_loop_split r pre ev post :
  script_run svc r -> trace r = pre ++ ev :: post -> is_get ev = true ->
  exists op0 l pre2 post2,
    loop_run svc op0 0 l /\
    pre = EClient (Ok tt) :: EGenerateVideos model prompt (Ok op0) :: pre2 /\
    trace l = pre2 ++ ev :: post2.
Proof.
  intros R E T.
  destruct R as [e|e|op0 l e C G L O|op0 l C G L O|op0 l op d C G L O D];
    cbn [trace] in E.
  - walk E.
  - walk E.
  - walk E. exists op0, l. eauto.
  - walk E. exists op0, l. eauto.
  - walk E. symmetry in E.
    destruct (split_app _ _ _ _ _ E) as [[m [E1 _]]|[m [_ E2]]].
    + exists op0, l. eauto.
    + exfalso. apply tail_run_events in D. rewrite E2 in D.
      apply Forall_app in D. destruct D as [_ D]. inversion D; subst.
      destruct ev; discriminate.
Qed.

(** Counting over a whole run events which are neither the two first calls
    nor events of the lines after the loop. *)
Lemma count_run f (u : unit) op0 (tl tail : list Event) :
  f (EClient (Ok u)) = false ->
  f (EGenerateVideos model prompt (Ok op0)) = false ->
  count f (EClient (Ok u) :: EGenerateVideos model prompt (Ok op0)
             :: tl ++ tail) = count f tl + count f tail.
Proof.
  intros Hc Hg. rewrite <- count_app. unfold count.
  cbn [filter]. now rewrite Hc, Hg.
Qed.

Lemma tail_run_quiet f op p d :
  tail_run svc op p d ->
  (forall ev, is_tail_event ev = true -> f ev = false) ->
  count f (trace d) = 0.
Proof.
  intros D H. apply count_none. apply tail_run_events in D.
  eapply Forall_impl; [|exact D]. exact H.
Qed.

Lemma loop_run_quiet f op p l :
  loop_run svc op p l ->
  (forall ev, is_loop_event ev = true -> f ev = false) ->
  count f (trace l) = 0.
Proof.
  intros L H. apply count_none. apply loop_run_events in L.
  eapply Forall_impl; [|exact L]. exact H.
Qed.

Lemma tail_run_slept op p d : tail_run svc op p d -> slept (trace d) = 0%Z.
Proof. now destruct 1. Qed.

End Further.

(** X1.  When the loop returns a handle which carries no response, the read
    of [generated_videos] on line 19 raises an attribute error: the run ends
    with that error right after the read, without a download or a save
    call. *)
Theorem missing_response_attribute_error svc fuel op0 op :
  client_reply svc = Ok tt -> generate_reply svc = Ok op0 ->
  outcome (poll_loop svc fuel op0 0) = Returned op ->
  response op = None ->
  outcome (run svc fuel) = Raised AttributeError /\
  trace (run svc fuel) =
    EClient (Ok tt) :: EGenerateVideos model prompt (Ok op0)
      :: trace (poll_loop svc fuel op0 0) ++ [EResponse op] /\
  count is_download (trace (run svc fuel)) = 0 /\
  count is_save (trace (run svc fuel)) = 0.
Proof.
  intros C G O R.
  assert (T : forall p,
             download_generated_video svc op p =
               mkRun (Raised AttributeError) p [EResponse op]).
  { intros p.
    unfold download_generated_video, response_generated_videos, emit, bind.
    cbn [outcome polled trace]. rewrite R. reflexivity. }
  rewrite (run_after_loop svc fuel op0 op) by assumption. cbv zeta.
  unfold after_loop, bind. rewrite T. cbn [outcome polled trace].
  pose proof (poll_loop_run svc fuel op0 0) as L.
  repeat split; rewrite count_run by reflexivity;
    rewrite (loop_run_quiet svc _ _ _ _ L); try reflexivity;
    intros ev; destruct ev; auto; discriminate.
Qed.

Lemma missing_response_attribute_error_witness :
  outcome
    (run (mkService (Ok tt) (Ok pending)
            (fun _ => Ok (mkOperation "operations/1" true None))
            (Ok tt) (Ok tt)) 3) = Raised AttributeError.
Proof.
  apply (missing_response_attribute_error _ 3 pending
           (mkOperation "operations/1" true None));
    reflexivity.
Defined.

(** X2.  Every run starts by creating the client.  The job is submitted
    only if that succeeded, then exactly once, with the model
    "veo-3.0-generate-preview" and the fixed prompt: neither the loop nor
    the lines after it submit again. *)
Theorem submit_once svc fuel :
  (exists rest, trace (run svc fuel) = EClient (client_reply svc) :: rest) /\
  (forall m p r,
     In (EGenerateVideos m p r) (trace (run svc fuel)) ->
     m = "veo-3.0-generate-preview" /\ p = prompt /\
     r = generate_reply svc /\ client_reply svc = Ok tt) /\
  count is_generate (trace (run svc fuel)) =
    match client_reply svc with Ok _ => 1 | Raise _ => 0 end.
Proof.
  assert (Lq : forall op0 ev,
             In ev (trace (poll_loop svc fuel op0 0)) ->
             is_generate ev = false).
  { intros op0 ev I.
    pose proof (loop_run_events svc _ _ _ (poll_loop_run svc fuel op0 0)) as F.
    rewrite Forall_forall in F. apply F in I. destruct ev; auto; discriminate. }
  assert (Tq : forall op p ev,
             In ev (trace (after_loop svc op p)) -> is_generate ev = false).
  { intros op p ev I.
    pose proof (tail_run_events svc _ _ _ (after_loop_run svc op p)) as F.
    rewrite Forall_forall in F. apply F in I. destruct ev; auto; discriminate. }
  rewrite run_unfold.
  destruct (client_reply svc) as [[]|e].
  2:{ cbn. split; [eauto|split; [|reflexivity]].
      intros m p r [I|[]]. discriminate. }
  destruct (generate_reply svc) as [op0|e].
  2:{ cbn. split; [eauto|split; [|reflexivity]].
      intros m p r [I|[I|[]]]; [discriminate|]. now injection I as <- <- <-. }
  cbv zeta.
  assert (Q : forall tl,
             (forall ev, In ev tl -> is_generate ev = false) ->
             (forall m p r,
                In (EGenerateVideos m p r)
                   ([EClient (Ok tt); EGenerateVideos model prompt (Ok op0)]
                      ++ tl) ->
                m = "veo-3.0-generate-preview" /\ p = prompt /\
                r = Ok op0 /\ Ok tt = Ok tt :> Reply unit) /\
             count is_generate
               ([EClient (Ok tt); EGenerateVideos model prompt (Ok op0)]
                  ++ tl) = 1).
  { intros tl H. split.
    - intros m p r [I|[I|I]]; [discriminate| |].
      + now injection I as <- <- <-.
      + apply H in I. discriminate.
    - rewrite count_app, (count_none is_generate tl); [reflexivity|].
      now apply Forall_forall. }
  destruct (outcome (poll_loop svc fuel op0 0)) as [op|e|];
    cbn [trace]; (split; [cbn; eauto|]); apply Q.
  - intros ev I. apply in_app_or in I. destruct I; eauto.
  - eauto.
  - eauto.
Qed.

(** X3.  Every poll of a run is made with the handle the script holds at
    that point, and that handle is not done; the poll comes right after a
    waiting message and a ten-second sleep, and it is answered by the next
    reply of the service. *)
Theorem poll_with_held_handle svc fuel pre op r post :
  trace (run svc fuel) = pre ++ EOperationsGet op r :: post ->
  handle_after pre = Some op /\ done op = false /\
  r = get_reply svc (count is_get pre) /\
  exists pre', pre = pre' ++ [EPrint waiting_message; ESleep 10].
Proof.
  intros E.
  destruct (script_run_loop_split svc _ _ _ _ (run_script_run svc fuel) E)
    as (op0 & l & pre2 & post2 & L & -> & El); [reflexivity|].
  destruct (loop_run_get svc _ _ _ L _ _ _ _ El) as (H & D & R & pre' & ->).
  repeat split; auto.
  exists (EClient (Ok tt) :: EGenerateVideos model prompt (Ok op0) :: pre').
  reflexivity.
Qed.

Lemma poll_with_held_handle_witness :
  handle_after
    [EClient (Ok tt); EGenerateVideos model prompt (Ok pending);
     EPrint waiting_message; ESleep 10;
     EOperationsGet pending (Ok pending);
     EPrint waiting_message; ESleep 10] = Some pending /\
  done pending = false.
Proof.
  assert (H := poll_with_held_handle demo 2
                 [EClient (Ok tt); EGenerateVideos model prompt (Ok pending);
                  EPrint waiting_message; ESleep 10;
                  EOperationsGet pending (Ok pending);
                  EPrint waiting_message; ESleep 10]
                 pending (Ok finished)
                 [EResponse finished; EFilesDownload (video video_a) (Ok tt);
                  ESave (video video_a) output_path (Ok tt);
                  EPrint saved_message] eq_refl).
  split; apply H.
Defined.

(** X4.  In every run, complete, faulted or cut off, there are as many
    sleeps and as many waiting messages as polls, and the time slept is ten
    seconds per poll. *)
Theorem sleeps_and_messages_match_polls svc fuel :
  count is_sleep (trace (run svc fuel)) =
    count is_get (trace (run svc fuel)) /\
  count (is_print waiting_message) (trace (run svc fuel)) =
    count is_get (trace (run svc fuel)) /\
  polled (run svc fuel) = count is_get (trace (run svc fuel)) /\
  slept (trace (run svc fuel)) =
    (10 * Z.of_nat (count is_get (trace (run svc fuel))))%Z.
Proof.
  assert (Lp : forall op0 l (tail : list Event),
             loop_run svc op0 0 l ->
             (forall f, (forall ev, is_tail_event ev = true -> f ev = false) ->
                        count f tail = 0) ->
             slept tail = 0%Z ->
             let tr := EClient (Ok tt)
                         :: EGenerateVideos model prompt (Ok op0)
                         :: trace l ++ tail in
             count is_sleep tr = count is_get tr /\
             count (is_print waiting_message) tr = count is_get tr /\
             polled l = count is_get tr /\
             slept tr = (10 * Z.of_nat (count is_get tr))%Z).
  { intros op0 l tail L Q Z0 tr. subst tr.
    destruct (loop_run_balance svc _ _ _ L) as (P & S & W & Z).
    rewrite !count_run by reflexivity.
    rewrite (Q is_sleep), (Q is_get), (Q (is_print waiting_message));
      try (intros ev; destruct ev; auto; discriminate).
    2:{ intros ev H. destruct ev; try discriminate; auto.
        cbn in *. apply String.eqb_eq in H. now subst. }
    change (slept (EClient (Ok tt)
                     :: EGenerateVideos model prompt (Ok op0)
                     :: trace l ++ tail))
      with (slept (trace l ++ tail)).
    rewrite slept_app, Z0, Z. unfold poll_interval.
    repeat split; lia. }
  destruct (run_script_run svc fuel)
    as [e|e|op0 l e C G L O|op0 l C G L O|op0 l op d C G L O D];
    cbn [trace polled].
  - repeat split; reflexivity.
  - repeat split; reflexivity.
  - rewrite <- (app_nil_r (trace l)). now apply Lp.
  - rewrite <- (app_nil_r (trace l)). now apply Lp.
  - rewrite (tail_run_polled svc _ _ _ D). apply Lp; auto.
    + intros f H. now apply (tail_run_quiet svc f _ _ _ D).
    + apply (tail_run_slept svc _ _ _ D).
Qed.

(** X5.  A save call of a run is made to "style_example.mp4", for the video
    of the first entry of the response, right after the read of that
    response and the successful download of that same video; no other save
    call comes before or after it. *)
Theorem save_follows_download svc fuel pre v path rep post :
  trace (run svc fuel) = pre ++ ESave v path rep :: post ->
  path = "style_example.mp4" /\ rep = save_reply svc /\
  download_reply svc = Ok tt /\
  (exists pre' op r gv rest,
     pre = pre' ++ [EResponse op; EFilesDownload v (Ok tt)] /\
     response op = Some r /\ generated_videos r = gv :: rest /\
     v = video gv) /\
  count is_save pre = 0 /\ count is_save post = 0.
Proof.
  intros E.
  destruct (script_run_tail_split svc _ _ _ _ (run_script_run svc fuel) E)
    as (op0 & l & op & d & m & L & O & D & -> & Ed); [reflexivity|].
  assert (Q : count is_save
                (EClient (Ok tt) :: EGenerateVideos model prompt (Ok op0)
                   :: trace l ++ [EResponse op; EFilesDownload v (Ok tt)])
              = 0).
  { rewrite count_run by reflexivity.
    rewrite (loop_run_quiet svc _ _ _ _ L); [reflexivity|].
    intros ev; destruct ev; auto; discriminate. }
  destruct D as [R|r R V|r gv rest e R V Dl|r gv rest e R V Dl Sv
                 |r gv rest R V Dl Sv];
    cbn [trace] in Ed; walk Ed;
    match goal with
    | H : ESave _ _ _ = ESave _ _ _ |- _ => injection H as -> -> ->
    end.
  - repeat split; auto.
    exists (EClient (Ok tt) :: EGenerateVideos model prompt (Ok op0)
              :: trace l), op, r, gv, rest.
    auto.
  - repeat split; auto.
    exists (EClient (Ok tt) :: EGenerateVideos model prompt (Ok op0)
              :: trace l), op, r, gv, rest.
    auto.
Qed.

Lemma save_follows_download_witness :
  output_path = "style_example.mp4" /\ Ok tt = save_reply demo.
Proof.
  assert (H := save_follows_download demo 2
                 [EClient (Ok tt); EGenerateVideos model prompt (Ok pending);
                  EPrint waiting_message; ESleep 10;
                  EOperationsGet pending (Ok pending);
                  EPrint waiting_message; ESleep 10;
                  EOperationsGet pending (Ok finished);
                  EResponse finished; EFilesDownload (video video_a) (Ok tt)]
                 (video video_a) output_path (Ok tt)
                 [EPrint saved_message] eq_refl).
  split; apply H.
Defined.

(** X6.  A run returns exactly when every call succeeds and the loop
    returns a handle whose response lists at least one video: the client is
    created, the job is submitted, the download and the save return. *)
Theorem success_iff svc fuel :
  outcome (run svc fuel) = Returned tt <->
  client_reply svc = Ok tt /\ download_reply svc = Ok tt /\
  save_reply svc = Ok tt /\
  exists op0 op r gv rest,
    generate_reply svc = Ok op0 /\
    outcome (poll_loop svc fuel op0 0) = Returned op /\
    response op = Some r /\ generated_videos r = gv :: rest.
Proof.
  split.
  - intros H. rewrite run_unfold in H.
    destruct (client_reply svc) as [[]|e]; [|discriminate].
    destruct (generate_reply svc) as [op0|e]; [|discriminate].
    cbv zeta in H.
    destruct (outcome (poll_loop svc fuel op0 0)) as [op|e|] eqn:O;
      try discriminate.
    cbn [outcome] in H.
    pose proof (after_loop_run svc op (polled (poll_loop svc fuel op0 0)))
      as D.
    destruct D as [R|r R V|r gv rest e R V Dl|r gv rest e R V Dl Sv
                   |r gv rest R V Dl Sv];
      try discriminate.
    repeat split; auto. now exists op0, op, r, gv, rest.
  - intros (C & Dl & Sv & op0 & op & r & gv & rest & G & O & R & V).
    rewrite (run_after_loop svc fuel op0 op) by assumption. cbv zeta.
    rewrite (after_loop_first svc op r gv rest) by assumption.
    now rewrite Dl, Sv.
Qed.

Lemma success_iff_witness : outcome (run demo 2) = Returned tt.
Proof.
  apply (proj2 (success_iff demo 2)).
  repeat split.
  exists pending, finished, (mkResponse [video_a; video_b]), video_a,
    [video_b].
  repeat split.
Defined.

(** X7.  The completion message is printed in a run if and only if the run
    returns: a faulted or cut-off run never announces a saved video. *)
Theorem saved_message_iff_success svc fuel :
  In (EPrint saved_message) (trace (run svc fuel)) <->
  outcome (run svc fuel) = Returned tt.
Proof.
  assert (Lq : forall op0 p l,
             loop_run svc op0 p l ->
             ~ In (EPrint saved_message) (trace l)).
  { intros op0 p l L I. apply loop_run_events in L.
    rewrite Forall_forall in L. apply L in I. discriminate. }
  destruct (run_script_run svc fuel)
    as [e C|e C G|op0 l e C G L O|op0 l C G L O|op0 l op d C G L O D];
    cbn [trace outcome]; (split; [intros I|intros Hr]); try discriminate.
  - destruct I as [I|[]]; discriminate.
  - destruct I as [I|[I|[]]]; discriminate.
  - destruct I as [I|[I|I]]; try discriminate. now apply (Lq _ _ _ L) in I.
  - destruct I as [I|[I|I]]; try discriminate. now apply (Lq _ _ _ L) in I.
  - destruct I as [I|[I|I]]; try discriminate.
    apply in_app_or in I.
    destruct I as [I|I]; [now apply (Lq _ _ _ L) in I|].
    destruct D; cbn [trace outcome In] in *; auto;
      repeat (destruct I as [I|I]; [discriminate|]); contradiction.
  - right. right. apply in_or_app. right.
    destruct D; try discriminate. cbn. auto.
Qed.

Lemma saved_message_iff_success_witness :
  In (EPrint saved_message) (trace (run demo 2)).
Proof. apply (proj2 (saved_message_iff_success demo 2)). reflexivity. Defined.



(** X9.  On a service whose handle is never done and whose polls never
    fail, the script never gets past the loop: whatever the budget, the run
    is cut off after that many turns, having read no response and issued no
    download, no save and no completion message. *)
Theorem never_done_never_finishes svc s fuel :
  client_reply svc = Ok tt -> generate_reply svc = Ok (s 0) ->
  (forall k, get_reply svc k = Ok (s (S k))) ->
  (forall k, done (s k) = false) ->
  run svc fuel =
    mkRun Diverged fuel
      (EClient (Ok tt) :: EGenerateVideos model prompt (Ok (s 0))
         :: iterations s fuel) /\
  count is_sleep (trace (run svc fuel)) = fuel /\
  count is_tail_event (trace (run svc fuel)) = 0.
Proof.
  intros C G P D.
  assert (L : poll_loop svc fuel (s 0) 0 =
              mkRun Diverged fuel (iterations s fuel)).
  { rewrite <- (Nat.add_0_r fuel) at 1.
    rewrite (poll_loop_advance svc s fuel 0 0) by (intros; auto).
    cbv zeta. cbn [Nat.add]. rewrite poll_loop_cut by auto.
    cbn [outcome polled trace]. now rewrite app_nil_r. }
  assert (R : run svc fuel =
              mkRun Diverged fuel
                (EClient (Ok tt) :: EGenerateVideos model prompt (Ok (s 0))
                   :: iterations s fuel)).
  { rewrite run_unfold, C, G. cbv zeta. now rewrite L. }
  rewrite R. cbn [trace]. split; [reflexivity|].
  rewrite <- (app_nil_r (iterations s fuel)).
  rewrite !count_run by reflexivity. split.
  - unfold iterations. rewrite count_sleep_turns. cbn. lia.
  - pose proof (loop_run_events svc _ _ _ (poll_loop_run svc fuel (s 0) 0))
      as F.
    rewrite L in F. cbn [trace] in F.
    rewrite (count_none is_tail_event (iterations s fuel)); [reflexivity|].
    eapply Forall_impl; [|exact F].
    intros ev Hev. now apply loop_event_not_tail.
Qed.

Lemma never_done_never_finishes_witness :
  run stuck 4 =
    mkRun Diverged 4
      (EClient (Ok tt) :: EGenerateVideos model prompt (Ok pending)
         :: iterations (fun _ => pending) 4) /\
  count is_sleep (trace (run stuck 4)) = 4 /\
  count is_tail_event (trace (run stuck 4)) = 0.
Proof.
  apply (never_done_never_finishes stuck (fun _ => pending) 4);
    reflexivity.
Defined.
